(** * enmem.h: typed, overflow-checked wrappers over malloc/calloc/realloc/free

    A shallow embedding of the allocation facade of [enmem.h]
    (nemequ/attic).  The raw allocator is external to the header, so it is
    a parameter of the development: an arbitrary transition function per
    entry point, acting on an abstract heap and on [errno].  Every call the
    header makes to the raw allocator is recorded in a trace, which is what
    the ownership statements (who frees what, and how often) are about. *)

From Stdlib Require Import ZArith List Bool Lia.
From ExtLib Require Import Structures.Monad Structures.MonadState.
From ExtLib Require Import Data.Monads.StateMonad.
Import ListNotations.
Import MonadNotation.
Local Open Scope Z_scope.
Local Open Scope monad_scope.

(** ** Data *)

(** [void*]: the null pointer, or the address of a block. *)
Inductive ptr : Type :=
| NULL
| addr (a : positive).

(** [p == NULL] *)
Definition is_NULL (p : ptr) : bool :=
  match p with
  | NULL => true
  | addr _ => false
  end.

Definition ptr_eqb (p q : ptr) : bool :=
  match p, q with
  | NULL, NULL => true
  | addr x, addr y => Pos.eqb x y
  | _, _ => false
  end.

(** The function a deallocation goes to.  [EN_FREE] is a macro that names
    [free] unless the embedding program defines it first
    (enmem.h:197-199). *)
Inductive deallocator : Type :=
| libc_free
| user_free.

(** What the preprocessor and the platform fix before any function runs. *)
Record build : Type := {
  sizeof_size_t : positive;   (* sizeof(size_t), in 8-bit bytes *)
  EN_MUL_OVERFLOW : bool;     (* enmem.h:218-224, __builtin_mul_overflow usable *)
  cplusplus : bool;           (* __cplusplus defined *)
  EN_FREE_target : deallocator; (* what the macro EN_FREE expands to *)
  ENOMEM : Z                  (* <errno.h> *)
}.

(** A call that reaches the raw allocator. *)
Inductive call : Type :=
| call_malloc (size : Z)
| call_calloc (nmemb size : Z)
| call_realloc (p : ptr) (size : Z)
| call_free (f : deallocator) (p : ptr).

Definition is_free (c : call) : bool :=
  match c with
  | call_free _ _ => true
  | _ => false
  end.

Definition frees (p : ptr) (c : call) : bool :=
  match c with
  | call_free _ q => ptr_eqb q p
  | _ => false
  end.

(** The call is a reallocation or a release of [p]. *)
Definition concerns (p : ptr) (c : call) : bool :=
  match c with
  | call_realloc q _ => ptr_eqb q p
  | call_free _ q => ptr_eqb q p
  | _ => false
  end.

Section Store.

Context {H : Type}.

(** What the raw allocator can read and write: its heap and [errno]. *)
Record store : Type := {
  heap : H;
  errno : Z
}.

(** The program state: the store and the calls made so far, oldest first. *)
Record world : Type := {
  mem : store;
  calls : list call
}.

(** The raw allocator: any behaviour at all. *)
Record raw_allocator : Type := {
  raw_malloc : Z -> store -> ptr * store;
  raw_calloc : Z -> Z -> store -> ptr * store;
  raw_realloc : ptr -> Z -> store -> ptr * store;
  raw_free : deallocator -> ptr -> store -> store
}.

End Store.

Arguments store : clear implicits.
Arguments world : clear implicits.
Arguments raw_allocator : clear implicits.

(** ** size_t arithmetic *)

Section Sizes.

Variable b : build.

Definition size_bits : Z := Z.pos (sizeof_size_t b) * 8.

Definition SIZE_MAX : Z := 2 ^ size_bits - 1.

Definition is_size_t (x : Z) : Prop := 0 <= x <= SIZE_MAX.

(** enmem.h:216, [((size_t) 1) << (sizeof(size_t) * 4)]. *)
Definition EN_NO_OVERFLOW : Z := Z.shiftl 1 (Z.pos (sizeof_size_t b) * 4).

(** Multiplication of two [size_t]: the product wraps. *)
Definition size_mul (x y : Z) : Z := (x * y) mod (SIZE_MAX + 1).

(** The test of enmem.h:295 (and 325), evaluated only after the
    [!nmemb] return, so the division never has a zero divisor. *)
Definition manual_check (size nmemb : Z) : bool :=
  ((EN_NO_OVERFLOW <=? nmemb) || (EN_NO_OVERFLOW <=? size))
  && (SIZE_MAX / nmemb <? size).

(** Modelled from the spec: the compiler's checked multiply
    [__builtin_mul_overflow], which is not part of the repository.  It
    reports whether the true product exceeds the range of [size_t], and
    stores the wrapped product. *)
Definition builtin_mul_overflow (size nmemb : Z) : bool * Z :=
  (SIZE_MAX <? size * nmemb, size_mul size nmemb).

(** The byte size of [nmemb] elements of [size] bytes does not fit. *)
Definition overflows (size nmemb : Z) : Prop := SIZE_MAX < size * nmemb.

End Sizes.

(** ** The header *)

Section Enmem.

Context {H : Type}.
Variable b : build.
Variable A : raw_allocator H.

Local Abbreviation M := (state (world H)).

(** *** The four raw entry points, each logging its call *)

Definition EN_MALLOC (size : Z) : M ptr :=
  mkState (fun w =>
    let r := raw_malloc A size (mem w) in
    (fst r, {| mem := snd r; calls := calls w ++ [call_malloc size] |})).

Definition EN_CALLOC (nmemb size : Z) : M ptr :=
  mkState (fun w =>
    let r := raw_calloc A nmemb size (mem w) in
    (fst r, {| mem := snd r; calls := calls w ++ [call_calloc nmemb size] |})).

Definition EN_REALLOC (p : ptr) (size : Z) : M ptr :=
  mkState (fun w =>
    let r := raw_realloc A p size (mem w) in
    (fst r, {| mem := snd r; calls := calls w ++ [call_realloc p size] |})).

Definition call_deallocator (f : deallocator) (p : ptr) : M unit :=
  mkState (fun w =>
    (tt, {| mem := raw_free A f p (mem w);
            calls := calls w ++ [call_free f p] |})).

Definition EN_FREE (p : ptr) : M unit := call_deallocator (EN_FREE_target b) p.

Definition free (p : ptr) : M unit := call_deallocator libc_free p.

(** [errno = e;] *)
Definition set_errno (e : Z) : M unit :=
  mkState (fun w =>
    (tt, {| mem := {| heap := heap (mem w); errno := e |};
            calls := calls w |})).

(** *** enfree, enmem.h:263-273

    The C++ template calls [free]; the two C macros call [EN_FREE]. *)
Definition enfree (p : ptr) : M ptr :=
  (if cplusplus b then free p else EN_FREE p) ;;
  ret NULL.

(** The deallocator [enfree] ends in. *)
Definition enfree_target : deallocator :=
  if cplusplus b then libc_free else EN_FREE_target b.

(** *** ennew, ennew0, enmem.h:275-281; a type is given by its [sizeof] *)
Definition ennew (sizeof_T : Z) : M ptr := EN_MALLOC sizeof_T.
Definition ennew0 (sizeof_T : Z) : M ptr := EN_CALLOC 1 sizeof_T.

(** *** ennewa_, enmem.h:283-304 *)
Definition ennewa_ (size nmemb : Z) : M ptr :=
  if nmemb =? 0 then ret NULL
  else if EN_MUL_OVERFLOW b then
    let (ovf, alloc_size) := builtin_mul_overflow b size nmemb in
    if ovf then set_errno (ENOMEM b) ;; ret NULL
    else EN_MALLOC alloc_size
  else
    if manual_check b size nmemb then set_errno (ENOMEM b) ;; ret NULL
    else
      let alloc_size := size_mul b size nmemb in
      EN_MALLOC alloc_size.

(** *** ennewa, ennewa0, enmem.h:305-311

    The casts to [T*], like the type checks wrapped around [enrealloc]
    and [enresize] below, act at compile time only. *)
Definition ennewa (sizeof_T nmemb : Z) : M ptr := ennewa_ sizeof_T nmemb.
Definition ennewa0 (sizeof_T nmemb : Z) : M ptr := EN_CALLOC nmemb sizeof_T.

(** *** enrealloc_, enmem.h:313-335 *)
Definition enrealloc_ (p : ptr) (size nmemb : Z) : M ptr :=
  if nmemb =? 0 then enfree p
  else if EN_MUL_OVERFLOW b then
    let (ovf, alloc_size) := builtin_mul_overflow b size nmemb in
    if ovf then set_errno (ENOMEM b) ;; ret NULL
    else EN_REALLOC p alloc_size
  else
    if manual_check b size nmemb then set_errno (ENOMEM b) ;; ret NULL
    else
      let alloc_size := size_mul b size nmemb in
      EN_REALLOC p alloc_size.

Definition enrealloc (p : ptr) (sizeof_T nmemb : Z) : M ptr :=
  enrealloc_ p sizeof_T nmemb.

(** *** enresize_, enmem.h:342-347 *)
Definition enresize_ (p : ptr) (size nmemb : Z) : M ptr :=
  tmp_ <- enrealloc_ p size nmemb ;;
  (if is_NULL tmp_ then EN_FREE p else ret tt) ;;
  ret tmp_.

Definition enresize (p : ptr) (sizeof_T nmemb : Z) : M ptr :=
  enresize_ p sizeof_T nmemb.

(** *** Observing a run *)

Definition result {T : Type} (c : M T) (w : world H) : T := fst (runState c w).
Definition after {T : Type} (c : M T) (w : world H) : world H :=
  snd (runState c w).

(** The calls a run adds to the trace. *)
Definition issued {T : Type} (c : M T) (w : world H) : list call :=
  skipn (length (calls w)) (calls (after c w)).

End Enmem.

(** ** A sample platform and raw allocator

    Two builds and a bump allocator over a small arena, on which the
    statements below are instantiated. *)

Module Sample.

Definition build64 : build := {|
  sizeof_size_t := 8;
  EN_MUL_OVERFLOW := false;
  cplusplus := false;
  EN_FREE_target := libc_free;
  ENOMEM := 12
|}.

Definition build32 : build := {|
  sizeof_size_t := 4;
  EN_MUL_OVERFLOW := true;
  cplusplus := false;
  EN_FREE_target := libc_free;
  ENOMEM := 12
|}.

(** [build64] with the compiler's checked multiply in use. *)
Definition build64_builtin : build := {|
  sizeof_size_t := 8;
  EN_MUL_OVERFLOW := true;
  cplusplus := false;
  EN_FREE_target := libc_free;
  ENOMEM := 12
|}.

(** A C++ build whose program has defined [EN_FREE] itself. *)
Definition build64_cxx : build := {|
  sizeof_size_t := 8;
  EN_MUL_OVERFLOW := true;
  cplusplus := true;
  EN_FREE_target := user_free;
  ENOMEM := 12
|}.

Definition arena_end : Z := 65536.

(** The heap is the next free address; a request that does not fit (or
    asks for nothing) gets [NULL] and [errno = 12]. *)
Definition bump (size : Z) (s : store positive) : ptr * store positive :=
  if (0 <? size) && (Z.pos (heap s) + size <=? arena_end)
  then (addr (heap s),
        {| heap := Z.to_pos (Z.pos (heap s) + size); errno := errno s |})
  else (NULL, {| heap := heap s; errno := 12 |}).

Definition bump_allocator : raw_allocator positive := {|
  raw_malloc := bump;
  raw_calloc := fun nmemb size => bump (nmemb * size);
  raw_realloc := fun _ size => bump size;
  raw_free := fun _ _ s => s
|}.

(** A raw allocator whose [calloc] multiplies without a check of its
    own, as very old C libraries did. *)
Definition unchecked_calloc_allocator (b : build) : raw_allocator positive := {|
  raw_malloc := bump;
  raw_calloc := fun nmemb size => bump (size_mul b nmemb size);
  raw_realloc := fun _ size => bump size;
  raw_free := fun _ _ s => s
|}.

Definition w0 : world positive := {|
  mem := {| heap := 4096%positive; errno := 0 |};
  calls := []
|}.

End Sample.

(** ** Facts about size_t arithmetic *)

Section SizeFacts.

Variable b : build.

Lemma size_bits_pos : 0 < size_bits b.
Proof. unfold size_bits. lia. Qed.

Lemma SIZE_MAX_nonneg : 0 <= SIZE_MAX b.
Proof.
  unfold SIZE_MAX.
  pose proof (Z.pow_pos_nonneg 2 (size_bits b)) as Hp.
  pose proof size_bits_pos. lia.
Qed.

Lemma EN_NO_OVERFLOW_pow : EN_NO_OVERFLOW b = 2 ^ (Z.pos (sizeof_size_t b) * 4).
Proof. unfold EN_NO_OVERFLOW. rewrite Z.shiftl_1_l. reflexivity. Qed.

(** The threshold is the square root of the number of [size_t] values. *)
Lemma EN_NO_OVERFLOW_square :
  EN_NO_OVERFLOW b * EN_NO_OVERFLOW b = SIZE_MAX b + 1.
Proof.
  rewrite EN_NO_OVERFLOW_pow. unfold SIZE_MAX, size_bits.
  rewrite <- Z.pow_add_r by lia.
  replace (Z.pos (sizeof_size_t b) * 4 + Z.pos (sizeof_size_t b) * 4)
    with (Z.pos (sizeof_size_t b) * 8) by lia.
  lia.
Qed.

(** It is 2 to half the width of [size_t]. *)
Lemma EN_NO_OVERFLOW_half : EN_NO_OVERFLOW b = 2 ^ (size_bits b / 2).
Proof.
  rewrite EN_NO_OVERFLOW_pow. unfold size_bits.
  replace (Z.pos (sizeof_size_t b) * 8)
    with (Z.pos (sizeof_size_t b) * 4 * 2) by lia.
  rewrite Z.div_mul by lia. reflexivity.
Qed.

Lemma EN_NO_OVERFLOW_pos : 0 < EN_NO_OVERFLOW b.
Proof. rewrite EN_NO_OVERFLOW_pow. apply Z.pow_pos_nonneg; lia. Qed.

(** Two operands below the threshold cannot overflow. *)
Lemma small_operands_fit (size nmemb : Z) :
  0 <= size < EN_NO_OVERFLOW b ->
  0 <= nmemb < EN_NO_OVERFLOW b ->
  size * nmemb <= SIZE_MAX b.
Proof.
  intros Hs Hn. pose proof EN_NO_OVERFLOW_square as Hsq. nia.
Qed.

(** The division test is the exact comparison of the product. *)
Lemma division_test (size nmemb : Z) :
  0 < nmemb ->
  (SIZE_MAX b / nmemb < size <-> SIZE_MAX b < size * nmemb).
Proof.
  intros Hn. split; intros Hlt.
  - pose proof (Z.div_mod (SIZE_MAX b) nmemb ltac:(lia)) as Hdm.
    pose proof (Z.mod_pos_bound (SIZE_MAX b) nmemb Hn) as Hmod.
    nia.
  - apply Z.div_lt_upper_bound; [assumption | lia].
Qed.

Lemma manual_check_spec (size nmemb : Z) :
  is_size_t b size -> is_size_t b nmemb -> 0 < nmemb ->
  (manual_check b size nmemb = true <-> overflows b size nmemb).
Proof.
  unfold is_size_t, overflows, manual_check. intros Hs Hn Hpos.
  rewrite andb_true_iff, orb_true_iff, !Z.leb_le, Z.ltb_lt.
  rewrite division_test by assumption.
  split; [tauto |].
  intros Hov. split; [| assumption].
  destruct (Z_lt_le_dec nmemb (EN_NO_OVERFLOW b)) as [Hsmall | Hbig];
    [| left; assumption].
  destruct (Z_lt_le_dec size (EN_NO_OVERFLOW b)) as [Hsmall' | Hbig];
    [| right; assumption].
  pose proof (small_operands_fit size nmemb) as Hfit. lia.
Qed.

Lemma size_mul_exact (size nmemb : Z) :
  0 <= size -> 0 <= nmemb -> ~ overflows b size nmemb ->
  size_mul b size nmemb = size * nmemb.
Proof.
  unfold overflows, size_mul. intros Hs Hn Hfit.
  apply Z.mod_small. nia.
Qed.

Lemma builtin_mul_overflow_spec (size nmemb : Z) :
  fst (builtin_mul_overflow b size nmemb) = true <-> overflows b size nmemb.
Proof. unfold builtin_mul_overflow, overflows. simpl. apply Z.ltb_lt. Qed.

End SizeFacts.

(** ** Running the header's functions *)

Section Runs.

Context {H : Type}.
Variable b : build.
Variable A : raw_allocator H.

(** A run that appends [l] to the trace has issued exactly [l]. *)
Lemma issued_of_calls {T : Type} (c : state (world H) T) (w : world H)
    (l : list call) :
  calls (after c w) = calls w ++ l -> issued c w = l.
Proof.
  unfold issued. intros ->.
  rewrite skipn_app, skipn_all, Nat.sub_diag. reflexivity.
Qed.

(** Reading result, issued calls and store off a run. *)
Lemma observe_run {T : Type} (c : state (world H) T) (w : world H)
    (r : T) (m : store H) (l : list call) :
  runState c w = (r, {| mem := m; calls := calls w ++ l |}) ->
  result c w = r /\ issued c w = l /\ mem (after c w) = m.
Proof.
  intros Hrun. rewrite <- (issued_of_calls c w l);
    unfold result, after; rewrite Hrun; repeat split; reflexivity.
Qed.

Lemma observe_silent_run {T : Type} (c : state (world H) T) (w : world H)
    (r : T) (m : store H) :
  runState c w = (r, {| mem := m; calls := calls w |}) ->
  result c w = r /\ issued c w = [] /\ mem (after c w) = m.
Proof.
  intros Hrun. apply observe_run. rewrite app_nil_r. exact Hrun.
Qed.

Lemma run_enfree (p : ptr) (w : world H) :
  runState (enfree b A p) w =
  (NULL, {| mem := raw_free A (enfree_target b) p (mem w);
            calls := calls w ++ [call_free (enfree_target b) p] |}).
Proof.
  unfold enfree, enfree_target, free, EN_FREE.
  destruct (cplusplus b); reflexivity.
Qed.

Lemma enfree_target_default :
  cplusplus b = false \/ EN_FREE_target b = libc_free ->
  enfree_target b = EN_FREE_target b.
Proof.
  unfold enfree_target. intros [-> | ->]; [reflexivity |].
  destruct (cplusplus b); reflexivity.
Qed.

Lemma run_ennewa__zero (size : Z) (w : world H) :
  runState (ennewa_ b A size 0) w = (NULL, w).
Proof. reflexivity. Qed.

Lemma run_enrealloc__zero (p : ptr) (size : Z) (w : world H) :
  runState (enrealloc_ b A p size 0) w = runState (enfree b A p) w.
Proof. reflexivity. Qed.

Section Sized.

Variables size nmemb : Z.
Hypothesis size_range : is_size_t b size.
Hypothesis nmemb_range : is_size_t b nmemb.

Lemma overflows_nmemb_pos : overflows b size nmemb -> 0 < nmemb.
Proof.
  unfold overflows. pose proof (SIZE_MAX_nonneg b).
  unfold is_size_t in *. nia.
Qed.

Lemma run_ennewa__overflow (w : world H) :
  overflows b size nmemb ->
  runState (ennewa_ b A size nmemb) w =
  (NULL, {| mem := {| heap := heap (mem w); errno := ENOMEM b |};
            calls := calls w |}).
Proof.
  intros Hov. pose proof (overflows_nmemb_pos Hov) as Hpos.
  unfold ennewa_.
  destruct (Z.eqb_spec nmemb 0) as [-> | _]; [lia |].
  destruct (EN_MUL_OVERFLOW b).
  - unfold builtin_mul_overflow.
    destruct (Z.ltb_spec (SIZE_MAX b) (size * nmemb)) as [_ | Hle];
      [reflexivity | unfold overflows in Hov; lia].
  - apply manual_check_spec in Hov; try assumption.
    rewrite Hov. reflexivity.
Qed.

Lemma run_ennewa__fits (w : world H) :
  0 < nmemb -> ~ overflows b size nmemb ->
  runState (ennewa_ b A size nmemb) w =
  runState (EN_MALLOC A (size * nmemb)) w.
Proof.
  intros Hpos Hfit. unfold ennewa_.
  destruct (Z.eqb_spec nmemb 0) as [-> | _]; [lia |].
  assert (Hmul : size_mul b size nmemb = size * nmemb)
    by (apply size_mul_exact; unfold is_size_t in *; lia || assumption).
  destruct (EN_MUL_OVERFLOW b).
  - unfold builtin_mul_overflow.
    destruct (Z.ltb_spec (SIZE_MAX b) (size * nmemb)) as [Hlt | _];
      [exfalso; apply Hfit; exact Hlt |].
    rewrite Hmul. reflexivity.
  - destruct (manual_check b size nmemb) eqn:Hchk.
    + exfalso. apply Hfit. apply manual_check_spec; assumption.
    + cbv zeta. rewrite Hmul. reflexivity.
Qed.

Lemma run_enrealloc__overflow (p : ptr) (w : world H) :
  overflows b size nmemb ->
  runState (enrealloc_ b A p size nmemb) w =
  (NULL, {| mem := {| heap := heap (mem w); errno := ENOMEM b |};
            calls := calls w |}).
Proof.
  intros Hov. pose proof (overflows_nmemb_pos Hov) as Hpos.
  unfold enrealloc_.
  destruct (Z.eqb_spec nmemb 0) as [-> | _]; [lia |].
  destruct (EN_MUL_OVERFLOW b).
  - unfold builtin_mul_overflow.
    destruct (Z.ltb_spec (SIZE_MAX b) (size * nmemb)) as [_ | Hle];
      [reflexivity | unfold overflows in Hov; lia].
  - apply manual_check_spec in Hov; try assumption.
    rewrite Hov. reflexivity.
Qed.

Lemma run_enrealloc__fits (p : ptr) (w : world H) :
  0 < nmemb -> ~ overflows b size nmemb ->
  runState (enrealloc_ b A p size nmemb) w =
  runState (EN_REALLOC A p (size * nmemb)) w.
Proof.
  intros Hpos Hfit. unfold enrealloc_.
  destruct (Z.eqb_spec nmemb 0) as [-> | _]; [lia |].
  assert (Hmul : size_mul b size nmemb = size * nmemb)
    by (apply size_mul_exact; unfold is_size_t in *; lia || assumption).
  destruct (EN_MUL_OVERFLOW b).
  - unfold builtin_mul_overflow.
    destruct (Z.ltb_spec (SIZE_MAX b) (size * nmemb)) as [Hlt | _];
      [exfalso; apply Hfit; exact Hlt |].
    rewrite Hmul. reflexivity.
  - destruct (manual_check b size nmemb) eqn:Hchk.
    + exfalso. apply Hfit. apply manual_check_spec; assumption.
    + cbv zeta. rewrite Hmul. reflexivity.
Qed.

End Sized.

(** [enresize_] is [enrealloc_] followed, on a null result, by
    [EN_FREE] of the old pointer. *)
Lemma run_enresize_ (p : ptr) (size nmemb : Z) (w : world H) :
  runState (enresize_ b A p size nmemb) w =
  let r := runState (enrealloc_ b A p size nmemb) w in
  (fst r,
   if is_NULL (fst r)
   then {| mem := raw_free A (EN_FREE_target b) p (mem (snd r));
           calls := calls (snd r) ++ [call_free (EN_FREE_target b) p] |}
   else snd r).
Proof.
  unfold enresize_. cbn -[enrealloc_].
  destruct (runState (enrealloc_ b A p size nmemb) w) as [tmp_ w'].
  cbn. destruct (is_NULL tmp_); reflexivity.
Qed.

(** [enrealloc_] only ever appends to the trace. *)
Lemma enrealloc__extends (p : ptr) (size nmemb : Z) (w : world H) :
  calls (after (enrealloc_ b A p size nmemb) w) =
  calls w ++ issued (enrealloc_ b A p size nmemb) w.
Proof.
  assert (Hex : exists l,
    calls (after (enrealloc_ b A p size nmemb) w) = calls w ++ l).
  { unfold after, enrealloc_.
    destruct (nmemb =? 0).
    - rewrite run_enfree. eexists. reflexivity.
    - destruct (EN_MUL_OVERFLOW b).
      + unfold builtin_mul_overflow.
        destruct (SIZE_MAX b <? size * nmemb); cbn.
        * exists []. symmetry. apply app_nil_r.
        * eexists. reflexivity.
      + destruct (manual_check b size nmemb); cbn.
        * exists []. symmetry. apply app_nil_r.
        * eexists. reflexivity. }
  destruct Hex as [l Hl]. rewrite (issued_of_calls _ _ _ Hl). exact Hl.
Qed.

End Runs.

(** ** Release, and the zero-element cases *)

Section Release.

Context {H : Type}.
Variable b : build.
Variable A : raw_allocator H.

(** Whatever pointer it is given, the null pointer included, [enfree]
    makes one deallocation call on that pointer and no other raw call,
    and evaluates to [NULL]: after [p = enfree(p)] the handle is null. *)
Theorem enfree_yields_NULL (p : ptr) (w : world H) :
  result (enfree b A p) w = NULL
  /\ issued (enfree b A p) w = [call_free (enfree_target b) p]
  /\ mem (after (enfree b A p) w) = raw_free A (enfree_target b) p (mem w).
Proof. apply observe_run, run_enfree. Qed.

Lemma run_EN_FREE (p : ptr) (w : world H) :
  runState (EN_FREE b A p) w =
  (tt, {| mem := raw_free A (EN_FREE_target b) p (mem w);
          calls := calls w ++ [call_free (EN_FREE_target b) p] |}).
Proof. reflexivity. Qed.

(** In a C build [enfree] releases through [EN_FREE], as [enresize_]
    does in every build. *)
Lemma enfree_C_calls_EN_FREE (p : ptr) (w : world H) :
  cplusplus b = false ->
  result (enfree b A p) w = NULL
  /\ issued (enfree b A p) w = issued (EN_FREE b A p) w
  /\ mem (after (enfree b A p) w) = mem (after (EN_FREE b A p) w).
Proof.
  intros Hc.
  destruct (observe_run _ _ _ _ _ (run_enfree b A p w)) as (Hr & Hi & Hm).
  destruct (observe_run _ _ _ _ _ (run_EN_FREE p w)) as (_ & Hi' & Hm').
  rewrite Hi, Hm, Hi', Hm'. unfold enfree_target. rewrite Hc. auto.
Qed.

(** C8. [enfree] evaluates to [NULL] for every pointer, but the C++
    template does not pass the pointer to the raw deallocator: it calls
    [free] whatever [EN_FREE] names.  In a C++ build whose program has
    defined [EN_FREE] itself, the one raw call of [enfree] is the C
    library's [free], and it differs from the call [EN_FREE] makes on the
    same pointer, which is the one [enresize_] and the C macros make. *)
Theorem enfree_cxx_bypasses_EN_FREE (p : ptr) (w : world H) :
  cplusplus b = true -> EN_FREE_target b = user_free ->
  result (enfree b A p) w = NULL
  /\ issued (enfree b A p) w = [call_free libc_free p]
  /\ issued (EN_FREE b A p) w = [call_free user_free p]
  /\ issued (enfree b A p) w <> issued (EN_FREE b A p) w
  /\ mem (after (enfree b A p) w) = raw_free A libc_free p (mem w).
Proof.
  intros Hc Hf.
  destruct (observe_run _ _ _ _ _ (run_enfree b A p w)) as (Hr & Hi & Hm).
  destruct (observe_run _ _ _ _ _ (run_EN_FREE p w)) as (_ & Hi' & _).
  unfold enfree_target in Hi, Hm. rewrite Hc in Hi, Hm. rewrite Hf in Hi'.
  rewrite Hi, Hi', Hm. repeat split; try assumption. discriminate.
Qed.

(** Over a deallocator that ignores the null pointer, as [free] does,
    releasing the null pointer changes nothing in the store. *)
Lemma enfree_NULL_noop (w : world H) :
  (forall (f : deallocator) (s : store H), raw_free A f NULL s = s) ->
  mem (after (enfree b A NULL) w) = mem w.
Proof.
  intros Hnoop. unfold after. rewrite run_enfree. cbn. apply Hnoop.
Qed.

(** C7. With [nmemb == 0], [enrealloc_] is [enfree]: for every pointer,
    null or not, and every element size, it releases the pointer and
    returns [NULL], and does nothing else. *)
Theorem enrealloc_zero_frees (p : ptr) (size : Z) (w : world H) :
  runState (enrealloc_ b A p size 0) w = runState (enfree b A p) w
  /\ result (enrealloc_ b A p size 0) w = NULL
  /\ issued (enrealloc_ b A p size 0) w = [call_free (enfree_target b) p]
  /\ mem (after (enrealloc_ b A p size 0) w)
     = raw_free A (enfree_target b) p (mem w).
Proof.
  split; [apply run_enrealloc__zero |].
  apply observe_run. rewrite run_enrealloc__zero. apply run_enfree.
Qed.

(** C1. Resizing to zero elements releases the old pointer twice:
    [enrealloc_] has already passed it to [enfree] when [enresize_] sees
    the null result, takes it for a failure and calls [EN_FREE] on the
    same pointer again.  Both calls name [p]; for a live block the second
    one is a double free. *)
Theorem enresize_zero_frees_twice (p : ptr) (size : Z) (w : world H) :
  result (enresize_ b A p size 0) w = NULL
  /\ issued (enresize_ b A p size 0) w
     = [call_free (enfree_target b) p; call_free (EN_FREE_target b) p]
  /\ length (filter (frees p) (issued (enresize_ b A p size 0) w)) = 2%nat.
Proof.
  assert (Hrun : runState (enresize_ b A p size 0) w =
    (NULL,
     {| mem := raw_free A (EN_FREE_target b) p
                 (raw_free A (enfree_target b) p (mem w));
        calls := calls w ++ [call_free (enfree_target b) p;
                             call_free (EN_FREE_target b) p] |})).
  { rewrite run_enresize_, run_enrealloc__zero, run_enfree. cbn.
    rewrite <- app_assoc. reflexivity. }
  destruct (observe_run _ _ _ _ _ Hrun) as (Hr & Hi & _).
  rewrite Hi. repeat split; try assumption.
  cbn. assert (Heq : ptr_eqb p p = true)
    by (destruct p; cbn; [reflexivity | apply Pos.eqb_refl]).
  rewrite Heq. reflexivity.
Qed.

(** C10. [enresize_] returns what [enrealloc_] returns, for every
    pointer, size and count and every raw allocator.  What it adds is one
    [EN_FREE] of the old pointer, exactly when that result is null. *)
Theorem enresize_returns_enrealloc (p : ptr) (size nmemb : Z) (w : world H) :
  result (enresize_ b A p size nmemb) w = result (enrealloc_ b A p size nmemb) w
  /\ issued (enresize_ b A p size nmemb) w
     = issued (enrealloc_ b A p size nmemb) w
       ++ (if is_NULL (result (enrealloc_ b A p size nmemb) w)
           then [call_free (EN_FREE_target b) p] else [])
  /\ mem (after (enresize_ b A p size nmemb) w)
     = (if is_NULL (result (enrealloc_ b A p size nmemb) w)
        then raw_free A (EN_FREE_target b) p
               (mem (after (enrealloc_ b A p size nmemb) w))
        else mem (after (enrealloc_ b A p size nmemb) w)).
Proof.
  apply observe_run. rewrite run_enresize_. cbv zeta.
  pose proof (enrealloc__extends b A p size nmemb w) as Hext.
  unfold result, after in *.
  destruct (is_NULL (fst (runState (enrealloc_ b A p size nmemb) w))).
  - rewrite Hext, <- app_assoc. reflexivity.
  - rewrite app_nil_r, <- Hext.
    destruct (snd (runState (enrealloc_ b A p size nmemb) w)); reflexivity.
Qed.

End Release.

(** ** The overflow check and the paths it guards *)

Section Overflow.

Context {H : Type}.
Variable b : build.
Variable A : raw_allocator H.

(** C2. In a build that takes the manual branch, for operands in the
    range of [size_t] and a nonzero count, the test of [ennewa_] (is an
    operand at least 2^(bits/2), and if so is [SIZE_MAX / nmemb < size])
    fires exactly when the true product exceeds [SIZE_MAX]; when it does
    not fire the wrapped product that is passed on is the true product.
    Operands equal to [SIZE_MAX] are covered like any other. *)
Theorem manual_check_exact (size nmemb : Z) :
  is_size_t b size -> is_size_t b nmemb -> 0 < nmemb ->
  EN_NO_OVERFLOW b = 2 ^ (size_bits b / 2)
  /\ (manual_check b size nmemb = true <-> SIZE_MAX b < size * nmemb)
  /\ (manual_check b size nmemb = false ->
      size_mul b size nmemb = size * nmemb)
  /\ (EN_MUL_OVERFLOW b = false ->
      forall w : world H,
        runState (ennewa_ b A size nmemb) w =
        if manual_check b size nmemb
        then (NULL, {| mem := {| heap := heap (mem w); errno := ENOMEM b |};
                       calls := calls w |})
        else runState (EN_MALLOC A (size * nmemb)) w).
Proof.
  intros Hs Hn Hpos.
  pose proof (manual_check_spec b size nmemb Hs Hn Hpos) as Hspec.
  unfold overflows in Hspec.
  assert (Hexact : manual_check b size nmemb = false ->
                   size_mul b size nmemb = size * nmemb).
  { intros Hchk. apply size_mul_exact; unfold is_size_t in *; try lia.
    unfold overflows. intros Hov. apply Hspec in Hov. congruence. }
  split; [apply EN_NO_OVERFLOW_half |].
  repeat split; try apply Hspec; try assumption.
  intros Hcfg w. unfold ennewa_. rewrite Hcfg.
  destruct (Z.eqb_spec nmemb 0) as [-> | _]; [lia |].
  destruct (manual_check b size nmemb); [reflexivity |].
  cbv zeta. rewrite Hexact; reflexivity.
Qed.

(** C5. When the byte size of the request does not fit in [size_t],
    [ennewa] and [enrealloc] return [NULL] with [errno] set to [ENOMEM],
    and the raw allocator is not called: its heap is as before. *)
Theorem overflow_reports_ENOMEM (p : ptr) (size nmemb : Z) (w : world H) :
  is_size_t b size -> is_size_t b nmemb -> overflows b size nmemb ->
  (result (ennewa b A size nmemb) w = NULL
   /\ issued (ennewa b A size nmemb) w = []
   /\ mem (after (ennewa b A size nmemb) w)
      = {| heap := heap (mem w); errno := ENOMEM b |})
  /\ (result (enrealloc b A p size nmemb) w = NULL
      /\ issued (enrealloc b A p size nmemb) w = []
      /\ mem (after (enrealloc b A p size nmemb) w)
         = {| heap := heap (mem w); errno := ENOMEM b |}).
Proof.
  intros Hs Hn Hov. unfold ennewa, enrealloc. split.
  - apply observe_silent_run, run_ennewa__overflow; assumption.
  - apply observe_silent_run, run_enrealloc__overflow; assumption.
Qed.

(** C3. For a nonzero count [enrealloc_] never calls a deallocator.  On
    overflow it returns [NULL] before any raw call, leaving the heap as it
    was; otherwise its one raw call is the reallocation itself, whose
    result it returns, failure included. *)
Theorem enrealloc_keeps_block (p : ptr) (size nmemb : Z) (w : world H) :
  is_size_t b size -> is_size_t b nmemb -> 0 < nmemb ->
  (overflows b size nmemb ->
   result (enrealloc_ b A p size nmemb) w = NULL
   /\ issued (enrealloc_ b A p size nmemb) w = []
   /\ heap (mem (after (enrealloc_ b A p size nmemb) w)) = heap (mem w))
  /\ (~ overflows b size nmemb ->
      result (enrealloc_ b A p size nmemb) w
      = fst (raw_realloc A p (size * nmemb) (mem w))
      /\ issued (enrealloc_ b A p size nmemb) w
         = [call_realloc p (size * nmemb)])
  /\ existsb is_free (issued (enrealloc_ b A p size nmemb) w) = false.
Proof.
  intros Hs Hn Hpos.
  assert (Hover : overflows b size nmemb ->
    result (enrealloc_ b A p size nmemb) w = NULL
    /\ issued (enrealloc_ b A p size nmemb) w = []
    /\ mem (after (enrealloc_ b A p size nmemb) w)
       = {| heap := heap (mem w); errno := ENOMEM b |})
    by (intros Hov; apply observe_silent_run, run_enrealloc__overflow;
        assumption).
  assert (Hfits : ~ overflows b size nmemb ->
    result (enrealloc_ b A p size nmemb) w
    = fst (raw_realloc A p (size * nmemb) (mem w))
    /\ issued (enrealloc_ b A p size nmemb) w
       = [call_realloc p (size * nmemb)]
    /\ mem (after (enrealloc_ b A p size nmemb) w)
       = snd (raw_realloc A p (size * nmemb) (mem w)))
    by (intros Hfit; apply observe_run; rewrite run_enrealloc__fits;
        [reflexivity | assumption ..]).
  split; [| split].
  - intros Hov. destruct (Hover Hov) as (Hr & Hi & Hm).
    rewrite Hm. auto.
  - intros Hfit. destruct (Hfits Hfit) as (Hr & Hi & _). auto.
  - destruct (Z_lt_le_dec (SIZE_MAX b) (size * nmemb)) as [Hov | Hle].
    + destruct (Hover Hov) as (_ & -> & _). reflexivity.
    + assert (Hfit : ~ overflows b size nmemb)
        by (unfold overflows; lia).
      destruct (Hfits Hfit) as (_ & -> & _). reflexivity.
Qed.


(** C6. With a zero count [ennewa_] returns [NULL] and leaves the whole
    state as it was: no raw call, and [errno] untouched, which is what
    tells this outcome from a failure.  With a nonzero count whose byte
    size fits it makes one raw call, [malloc] of the product, and returns
    its result. *)
Theorem ennewa_zero_or_one_call (size : Z) (w : world H) :
  (runState (ennewa_ b A size 0) w = (NULL, w)
   /\ issued (ennewa_ b A size 0) w = []
   /\ errno (mem (after (ennewa_ b A size 0) w)) = errno (mem w))
  /\ (forall nmemb : Z,
        is_size_t b size -> is_size_t b nmemb -> 0 < nmemb ->
        ~ overflows b size nmemb ->
        issued (ennewa_ b A size nmemb) w = [call_malloc (size * nmemb)]
        /\ result (ennewa_ b A size nmemb) w
           = fst (raw_malloc A (size * nmemb) (mem w))
        /\ mem (after (ennewa_ b A size nmemb) w)
           = snd (raw_malloc A (size * nmemb) (mem w))).
Proof.
  split.
  - repeat split.
    unfold issued, after. rewrite run_ennewa__zero. cbn.
    apply skipn_all.
  - intros nmemb Hs Hn Hpos Hfit.
    assert (Hobs : result (ennewa_ b A size nmemb) w
                   = fst (raw_malloc A (size * nmemb) (mem w))
                   /\ issued (ennewa_ b A size nmemb) w
                      = [call_malloc (size * nmemb)]
                   /\ mem (after (ennewa_ b A size nmemb) w)
                      = snd (raw_malloc A (size * nmemb) (mem w)))
      by (apply observe_run; rewrite run_ennewa__fits;
          [reflexivity | assumption ..]).
    tauto.
Qed.

(** C9. [ennewa0] is one call of the raw zero-filling allocator on the
    count and the element size as given, whatever they are: its result and
    the store it leaves are that call's, and [errno] is set by no one
    else.  No product of the two is formed and no range is consulted, so
    an overflowing request is refused only if the raw allocator refuses
    it. *)
Theorem ennewa0_is_calloc (sizeof_T nmemb : Z) (w : world H) :
  result (ennewa0 A sizeof_T nmemb) w
  = fst (raw_calloc A nmemb sizeof_T (mem w))
  /\ issued (ennewa0 A sizeof_T nmemb) w = [call_calloc nmemb sizeof_T]
  /\ mem (after (ennewa0 A sizeof_T nmemb) w)
     = snd (raw_calloc A nmemb sizeof_T (mem w)).
Proof. apply observe_run. reflexivity. Qed.

End Overflow.

(** ** The statements on the sample platform *)

Section Instances.

Import Sample.

Local Ltac in_range :=
  unfold is_size_t, overflows, SIZE_MAX, size_bits; simpl; lia.

(** The scenario of enmem.c:39-40, [ennewa(int, 0)]. *)
Example ennewa_int_0 :
  runState (ennewa build64 bump_allocator 4 0) w0 = (NULL, w0).
Proof. reflexivity. Qed.

(** enmem.c:43, [ennewa(int, 42)]: one [malloc] of 168 bytes. *)
Example ennewa_int_42 :
  result (ennewa build64 bump_allocator 4 42) w0 = addr 4096
  /\ issued (ennewa build64 bump_allocator 4 42) w0 = [call_malloc 168].
Proof. split; reflexivity. Qed.

(** enmem.c:56-59, [ennewa(int, SIZE_MAX / sizeof(int) + 1)], on both
    branches of the overflow check. *)
Example ennewa_int_overflow :
  runState (ennewa build64 bump_allocator 4 (SIZE_MAX build64 / 4 + 1)) w0
  = (NULL, {| mem := {| heap := 4096%positive; errno := 12 |}; calls := [] |})
  /\ runState (ennewa build32 bump_allocator 4 (SIZE_MAX build32 / 4 + 1)) w0
     = (NULL, {| mem := {| heap := 4096%positive; errno := 12 |};
                 calls := [] |}).
Proof. split; vm_compute; reflexivity. Qed.

(** enmem.c:51, [ennewa(int, SIZE_MAX / sizeof(int))]: the largest count
    that fits reaches [malloc]. *)
Example ennewa_int_largest :
  issued (ennewa build64 bump_allocator 4 (SIZE_MAX build64 / 4)) w0
  = [call_malloc (2 ^ 64 - 4)].
Proof. vm_compute. reflexivity. Qed.

(** enmem.c:105-108: [x = enresize(x, int, 1); x = enresize(x, int, 0);]
    passes the block at 4096 to [free] twice. *)
Example enresize_int_0_double_free :
  result (enresize build64 bump_allocator NULL 4 1) w0 = addr 4096
  /\ issued (enresize build64 bump_allocator (addr 4096) 4 0)
       (after (enresize build64 bump_allocator NULL 4 1) w0)
     = [call_free libc_free (addr 4096); call_free libc_free (addr 4096)].
Proof. split; vm_compute; reflexivity. Qed.

(** In a C++ build with [EN_FREE] redefined, the same two releases go to
    two different deallocators. *)
Example enresize_int_0_cxx :
  issued (enresize build64_cxx bump_allocator (addr 4096) 4 0) w0
  = [call_free libc_free (addr 4096); call_free user_free (addr 4096)].
Proof. vm_compute. reflexivity. Qed.

(** Over a [calloc] that does not check its product, a request that
    [ennewa] refuses is granted by [ennewa0], with a block of the wrapped
    size (4 bytes for 2^30 + 1 four-byte elements on a 32-bit build). *)
Example ennewa0_unchecked_calloc :
  result (ennewa build32 (unchecked_calloc_allocator build32) 4 (2 ^ 30 + 1)) w0
  = NULL
  /\ result (ennewa0 (unchecked_calloc_allocator build32) 4 (2 ^ 30 + 1)) w0
     = addr 4096
  /\ heap (mem (after
       (ennewa0 (unchecked_calloc_allocator build32) 4 (2 ^ 30 + 1)) w0))
     = 4100%positive.
Proof. repeat split; vm_compute; reflexivity. Qed.

Lemma manual_check_exact_witness :
  EN_NO_OVERFLOW build64 = 2 ^ (size_bits build64 / 2)
  /\ (manual_check build64 (2 ^ 64 - 1) (2 ^ 64 - 1) = true
   <-> SIZE_MAX build64 < (2 ^ 64 - 1) * (2 ^ 64 - 1))
  /\ (manual_check build64 (2 ^ 64 - 1) (2 ^ 64 - 1) = false ->
      size_mul build64 (2 ^ 64 - 1) (2 ^ 64 - 1)
      = (2 ^ 64 - 1) * (2 ^ 64 - 1))
  /\ (EN_MUL_OVERFLOW build64 = false ->
      forall w : world positive,
        runState (ennewa_ build64 bump_allocator (2 ^ 64 - 1) (2 ^ 64 - 1)) w =
        if manual_check build64 (2 ^ 64 - 1) (2 ^ 64 - 1)
        then (NULL, {| mem := {| heap := heap (mem w);
                                 errno := ENOMEM build64 |};
                       calls := calls w |})
        else runState (EN_MALLOC bump_allocator
                         ((2 ^ 64 - 1) * (2 ^ 64 - 1))) w).
Proof.
  apply (manual_check_exact build64 bump_allocator (2 ^ 64 - 1) (2 ^ 64 - 1));
    in_range.
Defined.

Lemma overflow_reports_ENOMEM_witness :
  overflows build64 4 (2 ^ 62)
  /\ result (ennewa build64 bump_allocator 4 (2 ^ 62)) w0 = NULL
  /\ errno (mem (after (ennewa build64 bump_allocator 4 (2 ^ 62)) w0)) = 12
  /\ issued (enrealloc build64 bump_allocator (addr 4096) 4 (2 ^ 62)) w0 = [].
Proof.
  assert (Hov : overflows build64 4 (2 ^ 62)) by in_range.
  destruct (overflow_reports_ENOMEM build64 bump_allocator (addr 4096)
              4 (2 ^ 62) w0 ltac:(in_range) ltac:(in_range) Hov)
    as ((Hr & _ & Hm) & (_ & Hi & _)).
  rewrite Hm. auto.
Defined.

Lemma enrealloc_keeps_block_witness :
  result (enrealloc_ build64 bump_allocator (addr 4096) 4 (2 ^ 62)) w0 = NULL
  /\ issued (enrealloc_ build64 bump_allocator (addr 4096) 4 (2 ^ 62)) w0 = []
  /\ existsb is_free
       (issued (enrealloc_ build64 bump_allocator (addr 4096) 4 (2 ^ 62)) w0)
     = false.
Proof.
  destruct (enrealloc_keeps_block build64 bump_allocator (addr 4096)
              4 (2 ^ 62) w0 ltac:(in_range) ltac:(in_range) ltac:(lia))
    as (Hover & _ & Hnofree).
  destruct (Hover ltac:(in_range)) as (Hr & Hi & _). auto.
Defined.


Lemma ennewa_zero_or_one_call_witness :
  runState (ennewa_ build64 bump_allocator 4 0) w0 = (NULL, w0)
  /\ issued (ennewa_ build64 bump_allocator 4 42) w0 = [call_malloc (4 * 42)]
  /\ result (ennewa_ build64 bump_allocator 4 42) w0 = addr 4096.
Proof.
  destruct (ennewa_zero_or_one_call build64 bump_allocator 4 w0)
    as ((Hzero & _) & Hone).
  destruct (Hone 42 ltac:(in_range) ltac:(in_range) ltac:(lia)
              ltac:(in_range)) as (Hi & Hr & _).
  rewrite Hr. auto.
Defined.

End Instances.

(** ** Beyond the overflow paths: what the build, the operands and the
    raw allocator's answer decide *)

Section Outcomes.

Context {H : Type}.
Variable A : raw_allocator H.

(** [ennewa_] by cases on the true product, whichever check is compiled
    in. *)
Lemma run_ennewa__cases (b : build) (size nmemb : Z) (w : world H) :
  is_size_t b size -> is_size_t b nmemb ->
  runState (ennewa_ b A size nmemb) w =
  if nmemb =? 0 then (NULL, w)
  else if SIZE_MAX b <? size * nmemb
  then (NULL, {| mem := {| heap := heap (mem w); errno := ENOMEM b |};
                 calls := calls w |})
  else runState (EN_MALLOC A (size * nmemb)) w.
Proof.
  intros Hs Hn.
  destruct (Z.eqb_spec nmemb 0) as [-> | Hnz]; [reflexivity |].
  assert (Hpos : 0 < nmemb) by (unfold is_size_t in Hn; lia).
  destruct (Z.ltb_spec (SIZE_MAX b) (size * nmemb)) as [Hov | Hfit].
  - apply run_ennewa__overflow; assumption.
  - apply run_ennewa__fits; try assumption. unfold overflows. lia.
Qed.

Lemma run_enrealloc__cases (b : build) (p : ptr) (size nmemb : Z)
    (w : world H) :
  is_size_t b size -> is_size_t b nmemb ->
  runState (enrealloc_ b A p size nmemb) w =
  if nmemb =? 0 then runState (enfree b A p) w
  else if SIZE_MAX b <? size * nmemb
  then (NULL, {| mem := {| heap := heap (mem w); errno := ENOMEM b |};
                 calls := calls w |})
  else runState (EN_REALLOC A p (size * nmemb)) w.
Proof.
  intros Hs Hn.
  destruct (Z.eqb_spec nmemb 0) as [-> | Hnz]; [reflexivity |].
  assert (Hpos : 0 < nmemb) by (unfold is_size_t in Hn; lia).
  destruct (Z.ltb_spec (SIZE_MAX b) (size * nmemb)) as [Hov | Hfit].
  - apply run_enrealloc__overflow; assumption.
  - apply run_enrealloc__fits; try assumption. unfold overflows. lia.
Qed.

(** With a nonzero count, and operands of any magnitude, [enrealloc_]
    either takes the error path or is one raw reallocation of [p]. *)
Lemma run_enrealloc__nonzero (b : build) (p : ptr) (size nmemb : Z)
    (w : world H) :
  nmemb <> 0 ->
  runState (enrealloc_ b A p size nmemb) w
  = (NULL, {| mem := {| heap := heap (mem w); errno := ENOMEM b |};
              calls := calls w |})
  \/ exists n : Z,
       runState (enrealloc_ b A p size nmemb) w
       = runState (EN_REALLOC A p n) w.
Proof.
  intros Hnz. unfold enrealloc_.
  destruct (Z.eqb_spec nmemb 0) as [? | _]; [contradiction |].
  destruct (EN_MUL_OVERFLOW b).
  - unfold builtin_mul_overflow.
    destruct (SIZE_MAX b <? size * nmemb);
      [left; reflexivity | right; eexists; reflexivity].
  - destruct (manual_check b size nmemb);
      [left; reflexivity | right; eexists; reflexivity].
Qed.

Lemma ptr_eqb_refl (p : ptr) : ptr_eqb p p = true.
Proof. destruct p; cbn; [reflexivity | apply Pos.eqb_refl]. Qed.

Lemma ptr_eqb_eq (p q : ptr) : ptr_eqb p q = true <-> p = q.
Proof.
  destruct p, q; cbn; split; try congruence.
  - intros Heq. apply Pos.eqb_eq in Heq. congruence.
  - intros Heq. injection Heq as ->. apply Pos.eqb_refl.
Qed.

Lemma SIZE_MAX_width (b1 b2 : build) :
  sizeof_size_t b1 = sizeof_size_t b2 -> SIZE_MAX b1 = SIZE_MAX b2.
Proof. unfold SIZE_MAX, size_bits. intros ->. reflexivity. Qed.

Lemma one_is_size_t (b : build) : is_size_t b 1.
Proof.
  unfold is_size_t, SIZE_MAX, size_bits.
  assert (2 ^ 1 <= 2 ^ (Z.pos (sizeof_size_t b) * 8))
    by (apply Z.pow_le_mono_r; lia).
  lia.
Qed.

(** X1. What [ennewa_] does depends on the build only through the width
    of [size_t] and the value of [ENOMEM]: the builtin and the manual
    overflow check give the same run on every pair of [size_t]
    operands. *)
Theorem ennewa__check_independent (b1 b2 : build) (size nmemb : Z)
    (w : world H) :
  sizeof_size_t b1 = sizeof_size_t b2 -> ENOMEM b1 = ENOMEM b2 ->
  is_size_t b1 size -> is_size_t b1 nmemb ->
  runState (ennewa_ b1 A size nmemb) w = runState (ennewa_ b2 A size nmemb) w.
Proof.
  intros Hw He Hs Hn.
  pose proof (SIZE_MAX_width b1 b2 Hw) as Hmax.
  rewrite (run_ennewa__cases b1), (run_ennewa__cases b2);
    unfold is_size_t in *; rewrite <- ?Hmax, <- ?He; auto.
Qed.

(** X2. Two builds that differ only in which overflow check is compiled
    in give the same run of [enrealloc_] and of [enresize_] on every
    pointer and every pair of [size_t] operands. *)
Theorem enrealloc__check_independent (b1 b2 : build) (p : ptr)
    (size nmemb : Z) (w : world H) :
  sizeof_size_t b1 = sizeof_size_t b2 -> ENOMEM b1 = ENOMEM b2 ->
  cplusplus b1 = cplusplus b2 -> EN_FREE_target b1 = EN_FREE_target b2 ->
  is_size_t b1 size -> is_size_t b1 nmemb ->
  runState (enrealloc_ b1 A p size nmemb) w
  = runState (enrealloc_ b2 A p size nmemb) w
  /\ runState (enresize_ b1 A p size nmemb) w
     = runState (enresize_ b2 A p size nmemb) w.
Proof.
  intros Hw He Hc Hf Hs Hn.
  pose proof (SIZE_MAX_width b1 b2 Hw) as Hmax.
  assert (Hre : runState (enrealloc_ b1 A p size nmemb) w
                = runState (enrealloc_ b2 A p size nmemb) w).
  { rewrite (run_enrealloc__cases b1), (run_enrealloc__cases b2);
      unfold is_size_t in *; rewrite <- ?Hmax, <- ?He; auto.
    rewrite !run_enfree. unfold enfree_target. rewrite Hc, Hf.
    reflexivity. }
  split; [exact Hre |].
  rewrite !run_enresize_, Hre, Hf. reflexivity.
Qed.

(** X3. When the size fits and the raw reallocator fails, [enresize_]
    releases the old pointer once, after the failed call, and returns
    [NULL]: the raw calls are that reallocation and one [EN_FREE]. *)
Theorem enresize_failure_frees_once (b : build) (p : ptr) (size nmemb : Z)
    (w : world H) :
  is_size_t b size -> is_size_t b nmemb -> 0 < nmemb ->
  ~ overflows b size nmemb ->
  fst (raw_realloc A p (size * nmemb) (mem w)) = NULL ->
  result (enresize_ b A p size nmemb) w = NULL
  /\ issued (enresize_ b A p size nmemb) w
     = [call_realloc p (size * nmemb); call_free (EN_FREE_target b) p]
  /\ mem (after (enresize_ b A p size nmemb) w)
     = raw_free A (EN_FREE_target b) p
         (snd (raw_realloc A p (size * nmemb) (mem w))).
Proof.
  intros Hs Hn Hpos Hfit Hfail. apply observe_run.
  rewrite run_enresize_, run_enrealloc__fits by assumption.
  cbn. rewrite Hfail. cbn. rewrite <- app_assoc. reflexivity.
Qed.

(** X4. When the size fits and the raw reallocator returns a block,
    [enresize_] returns that block and makes no other raw call: nothing
    is released. *)
Theorem enresize_success_frees_nothing (b : build) (p : ptr)
    (size nmemb : Z) (w : world H) (a : positive) :
  is_size_t b size -> is_size_t b nmemb -> 0 < nmemb ->
  ~ overflows b size nmemb ->
  fst (raw_realloc A p (size * nmemb) (mem w)) = addr a ->
  result (enresize_ b A p size nmemb) w = addr a
  /\ issued (enresize_ b A p size nmemb) w = [call_realloc p (size * nmemb)]
  /\ mem (after (enresize_ b A p size nmemb) w)
     = snd (raw_realloc A p (size * nmemb) (mem w)).
Proof.
  intros Hs Hn Hpos Hfit Hok. apply observe_run.
  rewrite run_enresize_, run_enrealloc__fits by assumption.
  cbn. rewrite Hok. reflexivity.
Qed.

(** X5. An array of one element is a single object: for every element
    size in the range of [size_t], [ennewa(T, 1)] runs as [ennew(T)]. *)
Theorem ennewa_one_is_ennew (b : build) (sizeof_T : Z) (w : world H) :
  is_size_t b sizeof_T ->
  runState (ennewa b A sizeof_T 1) w = runState (ennew A sizeof_T) w.
Proof.
  intros Hs. unfold ennewa, ennew.
  rewrite run_ennewa__fits;
    [rewrite Z.mul_1_r; reflexivity | assumption | apply one_is_size_t
    | lia | unfold overflows, is_size_t in *; lia].
Qed.

(** X6. Over a raw allocator that follows the C library in treating
    [realloc(NULL, n)] as [malloc(n)] and [free(NULL)] as a no-op,
    [enrealloc] of the null pointer gives the pointer and leaves the store
    that [ennewa] gives, for every pair of [size_t] operands, zero count
    and overflow included. *)
Theorem enrealloc_NULL_is_ennewa (b : build) (sizeof_T nmemb : Z)
    (w : world H) :
  (forall (n : Z) (s : store H), raw_realloc A NULL n s = raw_malloc A n s) ->
  (forall (f : deallocator) (s : store H), raw_free A f NULL s = s) ->
  is_size_t b sizeof_T -> is_size_t b nmemb ->
  result (enrealloc b A NULL sizeof_T nmemb) w
  = result (ennewa b A sizeof_T nmemb) w
  /\ mem (after (enrealloc b A NULL sizeof_T nmemb) w)
     = mem (after (ennewa b A sizeof_T nmemb) w).
Proof.
  intros Hre Hfree Hs Hn. unfold result, after, enrealloc, ennewa.
  rewrite run_enrealloc__cases, run_ennewa__cases by assumption.
  destruct (nmemb =? 0).
  - rewrite run_enfree. cbn. rewrite Hfree. auto.
  - destruct (SIZE_MAX b <? sizeof_T * nmemb); [auto |].
    cbn. rewrite Hre. auto.
Qed.

(** X7. For a nonzero element size, the largest count [ennewa] passes on
    to [malloc] is [SIZE_MAX / sizeof(T)]: up to it the one raw call is
    [malloc] of the exact product, and above it there is no raw call,
    the result is [NULL] and [errno] is [ENOMEM]. *)
Theorem ennewa_largest_count (b : build) (sizeof_T nmemb : Z) (w : world H) :
  is_size_t b sizeof_T -> 0 < sizeof_T -> is_size_t b nmemb -> 0 < nmemb ->
  (nmemb <= SIZE_MAX b / sizeof_T ->
   issued (ennewa b A sizeof_T nmemb) w = [call_malloc (sizeof_T * nmemb)])
  /\ (SIZE_MAX b / sizeof_T < nmemb ->
      issued (ennewa b A sizeof_T nmemb) w = []
      /\ result (ennewa b A sizeof_T nmemb) w = NULL
      /\ errno (mem (after (ennewa b A sizeof_T nmemb) w)) = ENOMEM b).
Proof.
  intros Hs Hspos Hn Hpos.
  pose proof (division_test b nmemb sizeof_T Hspos) as Hdiv.
  rewrite (Z.mul_comm nmemb sizeof_T) in Hdiv.
  unfold ennewa. split.
  - intros Hle.
    assert (Hfit : ~ overflows b sizeof_T nmemb)
      by (unfold overflows; intros Hov; apply Hdiv in Hov; lia).
    assert (Hobs : result (ennewa_ b A sizeof_T nmemb) w
                   = fst (raw_malloc A (sizeof_T * nmemb) (mem w))
                   /\ issued (ennewa_ b A sizeof_T nmemb) w
                      = [call_malloc (sizeof_T * nmemb)]
                   /\ mem (after (ennewa_ b A sizeof_T nmemb) w)
                      = snd (raw_malloc A (sizeof_T * nmemb) (mem w)))
      by (apply observe_run; rewrite run_ennewa__fits;
          [reflexivity | assumption ..]).
    tauto.
  - intros Hgt.
    assert (Hov : overflows b sizeof_T nmemb)
      by (unfold overflows; apply Hdiv; assumption).
    destruct (observe_silent_run _ _ _ _
                (run_ennewa__overflow b A sizeof_T nmemb Hs Hn w Hov))
      as (Hr & Hi & Hm).
    rewrite Hm. auto.
Qed.

(** X8. Resizing to a nonzero count and then releasing the result, as in
    [x = enresize(x, T, n); x = enfree(x);], passes a given non-null old
    pointer to a deallocator at most once, whatever the sizes and whatever
    the raw allocator answers. *)
Theorem enresize_then_enfree_releases_once (b : build) (p : ptr)
    (size nmemb : Z) (w : world H) :
  p <> NULL -> nmemb <> 0 ->
  (length (filter (frees p)
     (issued (x <- enresize_ b A p size nmemb ;; enfree b A x) w)) <= 1)%nat.
Proof.
  intros Hp Hnz.
  assert (Hnull : ptr_eqb NULL p = false)
    by (destruct p; [contradiction | reflexivity]).
  assert (Hrun : runState (x <- enresize_ b A p size nmemb ;; enfree b A x) w
                 = runState (enfree b A (fst (runState (enresize_ b A p size nmemb) w)))
                     (snd (runState (enresize_ b A p size nmemb) w))).
  { cbn -[enresize_ enfree].
    destruct (runState (enresize_ b A p size nmemb) w). reflexivity. }
  assert (Hiss : forall l r m,
    runState (enresize_ b A p size nmemb) w
    = (r, {| mem := m; calls := calls w ++ l |}) ->
    issued (x <- enresize_ b A p size nmemb ;; enfree b A x) w
    = l ++ [call_free (enfree_target b) r]).
  { intros l r m Hres. apply issued_of_calls. unfold after.
    rewrite Hrun, Hres, run_enfree. cbn. symmetry. apply app_assoc. }
  destruct (run_enrealloc__nonzero b p size nmemb w Hnz) as [Hov | [n Hre]].
  - rewrite (Hiss [call_free (EN_FREE_target b) p] NULL
               (raw_free A (EN_FREE_target b) p
                  {| heap := heap (mem w); errno := ENOMEM b |})).
    + cbn -[ptr_eqb]. rewrite ptr_eqb_refl, Hnull. cbn. lia.
    + rewrite run_enresize_, Hov. reflexivity.
  - destruct (is_NULL (fst (raw_realloc A p n (mem w)))) eqn:Hnul.
    + rewrite (Hiss [call_realloc p n; call_free (EN_FREE_target b) p] NULL
                 (raw_free A (EN_FREE_target b) p
                    (snd (raw_realloc A p n (mem w))))).
      * cbn -[ptr_eqb]. rewrite ptr_eqb_refl, Hnull. cbn. lia.
      * rewrite run_enresize_, Hre. cbn. rewrite Hnul.
        destruct (fst (raw_realloc A p n (mem w))); [| discriminate].
        rewrite <- app_assoc. reflexivity.
    + rewrite (Hiss [call_realloc p n] (fst (raw_realloc A p n (mem w)))
                 (snd (raw_realloc A p n (mem w)))).
      * cbn -[ptr_eqb].
        destruct (ptr_eqb (fst (raw_realloc A p n (mem w))) p); cbn; lia.
      * rewrite run_enresize_, Hre. cbn. rewrite Hnul. reflexivity.
Qed.

(** X9. [enresize_] makes at most two raw calls, and each of them is a
    reallocation or a release of the pointer it was given: it never
    allocates afresh and never touches another block. *)
Theorem enresize_concerns_its_pointer (b : build) (p : ptr) (size nmemb : Z)
    (w : world H) :
  forallb (concerns p) (issued (enresize_ b A p size nmemb) w) = true
  /\ (length (issued (enresize_ b A p size nmemb) w) <= 2)%nat.
Proof.
  assert (Hex : exists l,
    calls (after (enresize_ b A p size nmemb) w) = calls w ++ l
    /\ forallb (concerns p) l = true /\ (length l <= 2)%nat).
  { unfold after. rewrite run_enresize_. cbv zeta.
    destruct (Z.eq_dec nmemb 0) as [-> | Hnz].
    - rewrite run_enrealloc__zero, run_enfree. cbn.
      exists [call_free (enfree_target b) p; call_free (EN_FREE_target b) p].
      rewrite <- app_assoc. cbn. rewrite ptr_eqb_refl. auto.
    - destruct (run_enrealloc__nonzero b p size nmemb w Hnz)
        as [-> | [n ->]].
      + cbn. exists [call_free (EN_FREE_target b) p].
        cbn. rewrite ptr_eqb_refl. auto.
      + cbn. destruct (is_NULL (fst (raw_realloc A p n (mem w)))); cbn.
        * exists [call_realloc p n; call_free (EN_FREE_target b) p].
          rewrite <- app_assoc. cbn. rewrite ptr_eqb_refl. auto.
        * exists [call_realloc p n]. cbn. rewrite ptr_eqb_refl. auto. }
  destruct Hex as (l & Hl & Hall & Hlen).
  rewrite (issued_of_calls _ _ _ Hl). auto.
Qed.

(** X10. With both operands nonzero, [ennewa_] does not care which one is
    the element size and which the count. *)
Theorem ennewa__operands_commute (b : build) (size nmemb : Z) (w : world H) :
  is_size_t b size -> is_size_t b nmemb -> 0 < size -> 0 < nmemb ->
  runState (ennewa_ b A size nmemb) w = runState (ennewa_ b A nmemb size) w.
Proof.
  intros Hs Hn Hspos Hnpos.
  rewrite (run_ennewa__cases b size nmemb), (run_ennewa__cases b nmemb size)
    by assumption.
  rewrite (Z.mul_comm nmemb size).
  destruct (Z.eqb_spec nmemb 0); [lia |].
  destruct (Z.eqb_spec size 0); [lia |]. reflexivity.
Qed.

(** X11. A zero element size is not short-circuited the way a zero count
    is: with a nonzero count, [ennewa_] asks the raw allocator for zero
    bytes and [enrealloc_] asks it to resize the block to zero bytes,
    and each returns what the raw allocator answers. *)
Theorem zero_size_reaches_allocator (b : build) (p : ptr) (nmemb : Z)
    (w : world H) :
  is_size_t b nmemb -> 0 < nmemb ->
  (issued (ennewa_ b A 0 nmemb) w = [call_malloc 0]
   /\ result (ennewa_ b A 0 nmemb) w = fst (raw_malloc A 0 (mem w)))
  /\ (issued (enrealloc_ b A p 0 nmemb) w = [call_realloc p 0]
      /\ result (enrealloc_ b A p 0 nmemb) w
         = fst (raw_realloc A p 0 (mem w))).
Proof.
  intros Hn Hpos.
  assert (Hz : is_size_t b 0)
    by (pose proof (SIZE_MAX_nonneg b); unfold is_size_t; lia).
  assert (Hfit : ~ overflows b 0 nmemb)
    by (pose proof (SIZE_MAX_nonneg b); unfold overflows; lia).
  split.
  - assert (Hobs : result (ennewa_ b A 0 nmemb) w
                   = fst (raw_malloc A 0 (mem w))
                   /\ issued (ennewa_ b A 0 nmemb) w = [call_malloc 0]
                   /\ mem (after (ennewa_ b A 0 nmemb) w)
                      = snd (raw_malloc A 0 (mem w)))
      by (apply observe_run; rewrite run_ennewa__fits by assumption;
          reflexivity).
    tauto.
  - assert (Hobs : result (enrealloc_ b A p 0 nmemb) w
                   = fst (raw_realloc A p 0 (mem w))
                   /\ issued (enrealloc_ b A p 0 nmemb) w
                      = [call_realloc p 0]
                   /\ mem (after (enrealloc_ b A p 0 nmemb) w)
                      = snd (raw_realloc A p 0 (mem w)))
      by (apply observe_run; rewrite run_enrealloc__fits by assumption;
          reflexivity).
    tauto.
Qed.

End Outcomes.

(** ** The outcomes on the sample platform *)

Section OutcomeInstances.

Import Sample.

Local Ltac in_range :=
  unfold is_size_t, overflows, SIZE_MAX, size_bits; simpl; lia.

Lemma ennewa__check_independent_witness :
  runState (ennewa_ build64 bump_allocator 4 (2 ^ 62)) w0
  = runState (ennewa_ build64_builtin bump_allocator 4 (2 ^ 62)) w0.
Proof.
  apply (ennewa__check_independent bump_allocator build64 build64_builtin
           4 (2 ^ 62) w0); try reflexivity; in_range.
Defined.

Lemma enrealloc__check_independent_witness :
  runState (enrealloc_ build64 bump_allocator (addr 4096) 4 42) w0
  = runState (enrealloc_ build64_builtin bump_allocator (addr 4096) 4 42) w0
  /\ runState (enresize_ build64 bump_allocator (addr 4096) 4 42) w0
     = runState (enresize_ build64_builtin bump_allocator (addr 4096) 4 42) w0.
Proof.
  apply (enrealloc__check_independent bump_allocator build64 build64_builtin
           (addr 4096) 4 42 w0); try reflexivity; in_range.
Defined.

Lemma enresize_failure_frees_once_witness :
  result (enresize_ build64 bump_allocator (addr 4096) 4 20000) w0 = NULL
  /\ issued (enresize_ build64 bump_allocator (addr 4096) 4 20000) w0
     = [call_realloc (addr 4096) (4 * 20000);
        call_free libc_free (addr 4096)].
Proof.
  destruct (enresize_failure_frees_once bump_allocator build64 (addr 4096)
              4 20000 w0 ltac:(in_range) ltac:(in_range) ltac:(lia)
              ltac:(in_range) eq_refl) as (Hr & Hi & _).
  auto.
Defined.

Lemma enresize_success_frees_nothing_witness :
  result (enresize_ build64 bump_allocator (addr 4096) 4 2) w0 = addr 4096
  /\ issued (enresize_ build64 bump_allocator (addr 4096) 4 2) w0
     = [call_realloc (addr 4096) (4 * 2)].
Proof.
  destruct (enresize_success_frees_nothing bump_allocator build64 (addr 4096)
              4 2 w0 4096%positive ltac:(in_range) ltac:(in_range)
              ltac:(lia) ltac:(in_range) eq_refl) as (Hr & Hi & _).
  auto.
Defined.

Lemma ennewa_one_is_ennew_witness :
  runState (ennewa build64 bump_allocator 4 1) w0
  = runState (ennew bump_allocator 4) w0.
Proof.
  apply (ennewa_one_is_ennew bump_allocator build64 4 w0). in_range.
Defined.

Lemma enrealloc_NULL_is_ennewa_witness :
  result (enrealloc build64 bump_allocator NULL 4 1) w0
  = result (ennewa build64 bump_allocator 4 1) w0
  /\ mem (after (enrealloc build64 bump_allocator NULL 4 1) w0)
     = mem (after (ennewa build64 bump_allocator 4 1) w0).
Proof.
  apply (enrealloc_NULL_is_ennewa bump_allocator build64 4 1 w0);
    try (intros; reflexivity); in_range.
Defined.

(** enmem.c:51-59 in general: [SIZE_MAX / sizeof(int)] elements are asked
    of [malloc], one more is refused. *)
Lemma ennewa_largest_count_witness :
  issued (ennewa build64 bump_allocator 4 (2 ^ 62 - 1)) w0
  = [call_malloc (4 * (2 ^ 62 - 1))]
  /\ issued (ennewa build64 bump_allocator 4 (2 ^ 62)) w0 = []
  /\ result (ennewa build64 bump_allocator 4 (2 ^ 62)) w0 = NULL
  /\ errno (mem (after (ennewa build64 bump_allocator 4 (2 ^ 62)) w0)) = 12.
Proof.
  split.
  - apply (ennewa_largest_count bump_allocator build64 4 (2 ^ 62 - 1) w0);
      try in_range. vm_compute. discriminate.
  - apply (ennewa_largest_count bump_allocator build64 4 (2 ^ 62) w0);
      try in_range. vm_compute. reflexivity.
Defined.

Lemma enresize_then_enfree_releases_once_witness :
  (length (filter (frees (addr 4096))
     (issued (x <- enresize_ build64 bump_allocator (addr 4096) 4 1 ;;
              enfree build64 bump_allocator x) w0)) <= 1)%nat.
Proof.
  apply (enresize_then_enfree_releases_once bump_allocator build64
           (addr 4096) 4 1 w0); discriminate.
Defined.

Lemma ennewa__operands_commute_witness :
  runState (ennewa_ build64 bump_allocator 4 42) w0
  = runState (ennewa_ build64 bump_allocator 42 4) w0.
Proof.
  apply (ennewa__operands_commute bump_allocator build64 4 42 w0);
    in_range.
Defined.

Lemma zero_size_reaches_allocator_witness :
  (issued (ennewa_ build64 bump_allocator 0 3) w0 = [call_malloc 0]
   /\ result (ennewa_ build64 bump_allocator 0 3) w0
      = fst (raw_malloc bump_allocator 0 (mem w0)))
  /\ (issued (enrealloc_ build64 bump_allocator (addr 4096) 0 3) w0
      = [call_realloc (addr 4096) 0]
      /\ result (enrealloc_ build64 bump_allocator (addr 4096) 0 3) w0
         = fst (raw_realloc bump_allocator (addr 4096) 0 (mem w0))).
Proof.
  apply (zero_size_reaches_allocator bump_allocator build64 (addr 4096) 3 w0);
    in_range.
Defined.

(** The double release of a zero-count resize is the one case the bound
    of two raw calls is reached without a reallocation. *)
Example enresize_zero_count_calls :
  forallb (concerns (addr 4096))
    (issued (enresize_ build64 bump_allocator (addr 4096) 4 0) w0) = true
  /\ length (issued (enresize_ build64 bump_allocator (addr 4096) 4 0) w0)
     = 2%nat.
Proof. split; vm_compute; reflexivity. Qed.

Lemma enfree_cxx_bypasses_EN_FREE_witness :
  result (enfree build64_cxx bump_allocator (addr 4096)) w0 = NULL
  /\ issued (enfree build64_cxx bump_allocator (addr 4096)) w0
     = [call_free libc_free (addr 4096)]
  /\ issued (EN_FREE build64_cxx bump_allocator (addr 4096)) w0
     = [call_free user_free (addr 4096)].
Proof.
  destruct (enfree_cxx_bypasses_EN_FREE build64_cxx bump_allocator
              (addr 4096) w0 eq_refl eq_refl) as (Hr & Hi & Hi' & _).
  auto.
Defined.

End OutcomeInstances.
